(** * REST request handlers of [src/rest.ts]

    A shallow embedding of the handler descriptors built by
    [createRestHandler] and of the six factories collected in [rest],
    together with the properties the handler lifecycle relies on.

    JavaScript code runs in a world made of the console, the object heap and
    the private state of the imported collaborators; computations are written
    in a small state-and-exception monad over that world. *)

From Stdlib Require Import ZArith Ascii String.
From stdpp Require Import base option list strings gmap.

Local Open Scope string_scope.

(** ** Strings of the JavaScript runtime *)

Module Js.

Definition dquote : string := String (ascii_of_nat 34) EmptyString.
Definition newline : string := String (ascii_of_nat 10) EmptyString.

(** [c.toLowerCase()] on the ASCII range. *)
Definition lower_ascii (c : ascii) : ascii :=
  let n := nat_of_ascii c in
  if (65 <=? n)%nat && (n <=? 90)%nat then ascii_of_nat (n + 32) else c.

Fixpoint toLowerCase (s : string) : string :=
  match s with
  | EmptyString => EmptyString
  | String c s' => String (lower_ascii c) (toLowerCase s')
  end.

(** [a.startsWith(b)] *)
Definition startsWith (a b : string) : bool := String.prefix b a.

(** [xs.join(sep)] *)
Fixpoint join (sep : string) (xs : list string) : string :=
  match xs with
  | [] => EmptyString
  | [x] => x
  | x :: rest => x ++ sep ++ join sep rest
  end.

(** Truthiness of a string: only the empty string is falsy. *)
Definition truthy_string (s : string) : bool :=
  match s with
  | EmptyString => false
  | String _ _ => true
  end.

End Js.

(** ** Data model *)

(** The enum [RESTMethods]; each member's value is its own name. *)
Inductive RESTMethods := GET | POST | PUT | PATCH | OPTIONS | DELETE.

Definition method_value (m : RESTMethods) : string :=
  match m with
  | GET => "GET"
  | POST => "POST"
  | PUT => "PUT"
  | PATCH => "PATCH"
  | OPTIONS => "OPTIONS"
  | DELETE => "DELETE"
  end.

(** A WHATWG [URL] object, by the properties the handlers read.
    [searchParams] lists the (name, value) pairs in iteration order. *)
Record URL := {
  href : string;
  origin : string;
  protocol : string;
  host : string;
  pathname : string;
  search : string;
  searchParams : list (string * string);
  hash : string
}.

Record RegExp := { source : string; flags : string }.

(** A [Mask] is a string, a regular expression or a URL object; the handler
    tells them apart at run time ([instanceof URL], truthiness). *)
Inductive Mask :=
| MaskString (s : string)
| MaskRegExp (r : RegExp)
| MaskURL (u : URL).

(** [String(mask)], as a template literal interpolates it. *)
Definition mask_toString (mask : Mask) : string :=
  match mask with
  | MaskString s => s
  | MaskRegExp r => "/" ++ source r ++ "/" ++ flags r
  | MaskURL u => href u
  end.

(** JavaScript truthiness of a mask: objects are truthy, a string is truthy
    unless empty. *)
Definition mask_truthy (mask : Mask) : bool :=
  match mask with
  | MaskString s => Js.truthy_string s
  | MaskRegExp _ => true
  | MaskURL _ => true
  end.

(** Path parameters: a mapping from parameter name to extracted value. *)
Abbreviation RequestParams := (gmap string string).

(** The matcher's result. [params] is [None] where the matcher leaves it
    [null] (no mapping was extracted). *)
Record MatchResult := {
  matches : bool;
  params : option RequestParams
}.

(** The interface [ParsedRestRequest]. *)
Record ParsedRestRequest := { match_ : MatchResult }.

(** A request object. [req_params] is [None] while the object has no
    [params] property (the request as the interception layer hands it over). *)
Record MockedRequest := {
  req_url : URL;
  req_method : string;
  req_headers : list (string * string);
  req_referrer : string;
  req_body : option string;
  req_params : option RequestParams
}.

Record MockedResponse := {
  res_status : Z;
  res_statusText : string;
  res_headers : list (string * string);
  res_body : option string
}.

(** The argument of Node's [format]: only these three properties are set. *)
Record UrlObject := {
  uo_protocol : string;
  uo_host : string;
  uo_pathname : string
}.

(** The response-building functions imported from [./context/*], each
    identified by the binding it is imported under. *)
Inductive ContextFn :=
| fn_set | fn_status | fn_cookie | fn_body | fn_text
| fn_json | fn_xml | fn_delay | fn_fetch.

(** The object literal [restContext]: shorthand properties, in order. *)
Definition restContext : list (string * ContextFn) :=
  [ ("set", fn_set); ("status", fn_status); ("cookie", fn_cookie);
    ("body", fn_body); ("text", fn_text); ("json", fn_json);
    ("xml", fn_xml); ("delay", fn_delay); ("fetch", fn_fetch) ].

(** Object references. *)
Abbreviation loc := nat.

(** [s.includes(part)]: [part] occurs somewhere in [s]. *)
Definition includes (s part : string) : Prop :=
  exists before after, s = before ++ part ++ after.

(** ** The world and its monad *)

Section World.

(** State private to the imported collaborators (matcher, clock), values
    that can be thrown, resolver function values, and what the logger
    helpers [prepareRequest] / [prepareResponse] produce. *)
Context {Ext Thrown Resolver LoggedRequest LoggedResponse : Type}.

(** An argument passed to a console method. [AHandler] is the object
    literal holding the mask and a reference to the resolver. *)
Inductive ConsoleArg :=
| AString (s : string)
| ANumber (n : Z)
| ARequest (r : LoggedRequest)
| AResponse (r : LoggedResponse)
| AHandler (mask : Mask) (resolver : Resolver).

Inductive ConsoleCall :=
| Warn (message : string)
| GroupCollapsed (args : list ConsoleArg)
| Log (args : list ConsoleArg)
| GroupEnd.

(** The console records its calls, oldest first. *)
Record World := {
  w_ext : Ext;
  w_console : list ConsoleCall;
  w_heap : gmap loc MockedRequest
}.

Inductive Outcome (A : Type) :=
| Returned (a : A)
| Threw (e : Thrown).
Global Arguments Returned {A} a.
Global Arguments Threw {A} e.

Definition M (A : Type) : Type := World -> Outcome A * World.

Definition ret {A} (a : A) : M A := fun w => (Returned a, w).

Definition bind {A B} (m : M A) (k : A -> M B) : M B :=
  fun w =>
    match m w with
    | (Returned a, w') => k a w'
    | (Threw e, w') => (Threw e, w')
    end.

(** A call into a collaborator: it sees and updates its own state only. *)
Definition call_ext {A} (f : Ext -> Outcome A * Ext) : M A :=
  fun w =>
    let (o, e) := f (w_ext w) in
    (o, {| w_ext := e; w_console := w_console w; w_heap := w_heap w |}).

(** A console method call. *)
Definition console (c : ConsoleCall) : M unit :=
  fun w =>
    (Returned tt,
     {| w_ext := w_ext w; w_console := w_console w ++ [c]; w_heap := w_heap w |}).

(** Evaluation of an object literal: a new object at a new address. *)
Definition alloc (o : MockedRequest) : M loc :=
  fun w =>
    let l := fresh (dom (w_heap w)) in
    (Returned l,
     {| w_ext := w_ext w; w_console := w_console w; w_heap := <[l := o]> (w_heap w) |}).

(** The number of warnings on a console. *)
Definition is_warn (c : ConsoleCall) : bool :=
  match c with
  | Warn _ => true
  | _ => false
  end.

Definition warnings (cs : list ConsoleCall) : nat :=
  length (filter (fun c => is_warn c = true) cs).

End World.

Arguments ConsoleArg : clear implicits.
Arguments ConsoleCall : clear implicits.
Arguments World : clear implicits.
Arguments Outcome : clear implicits.
Arguments M : clear implicits.

Declare Scope js_scope.
Delimit Scope js_scope with js.
Notation "x <- m ;; k" := (bind m (fun x => k))
  (at level 100, m at level 99, k at level 200, right associativity,
   format "'[v' x  <-  m  ;; '/' k ']'") : js_scope.
Notation "m ;; k" := (bind m (fun _ => k))
  (at level 100, k at level 200, right associativity,
   format "'[v' m  ;; '/' k ']'") : js_scope.

Local Open Scope js_scope.

(** ** Imported collaborators

    What [rest.ts] imports and calls. The matcher and the clock are the only
    ones with state of their own; the matcher may throw. [call_resolver] is
    the application of a resolver function value to the public request and
    the context (with the response builder it is always given); a resolver is
    user code and may do anything to the world. *)
Class Imports (Ext Thrown Resolver LoggedRequest LoggedResponse : Type) := {
  isStringEqual : string -> string -> bool;
  matchRequestUrl : URL -> Mask -> Ext -> Outcome Thrown MatchResult * Ext;
  resolveMask : Mask -> Mask;
  format : UrlObject -> string;
  prepareRequest : MockedRequest -> LoggedRequest;
  prepareResponse : MockedResponse -> LoggedResponse;
  getTimestamp : Ext -> string * Ext;
  getStatusCodeColor : Z -> string;
  call_resolver :
    Resolver -> loc -> list (string * ContextFn) ->
    M Ext Thrown Resolver LoggedRequest LoggedResponse MockedResponse
}.

(** ** The handler descriptor *)

(** A descriptor is a set of closures over [method], [mask], [resolver] and
    [resolvedMask]; it is represented by the environment they share, and its
    methods by functions of that environment. *)
Record RestHandler (Resolver : Type) := {
  h_method : RESTMethods;
  h_mask : Mask;
  h_resolvedMask : Mask;
  resolver : Resolver
}.
Arguments h_method {Resolver} _.
Arguments h_mask {Resolver} _.
Arguments h_resolvedMask {Resolver} _.
Arguments resolver {Resolver} _.

Section Rest.

Context {Ext Thrown Resolver LoggedRequest LoggedResponse : Type}.
Context `{!Imports Ext Thrown Resolver LoggedRequest LoggedResponse}.

Local Abbreviation JsM A := (M Ext Thrown Resolver LoggedRequest LoggedResponse A).
Local Abbreviation Handler := (RestHandler Resolver).

(** [parse(req)], lines 60-68. *)
Definition parse (h : Handler) (req : MockedRequest) : JsM ParsedRestRequest :=
  match_result <- call_ext (matchRequestUrl (req_url req) (h_mask h)) ;;
  ret {| match_ := match_result |}.

(** [predicate(req, parsedRequest)], lines 69-71. *)
Definition predicate (h : Handler) (req : MockedRequest)
    (parsedRequest : ParsedRestRequest) : bool :=
  isStringEqual (method_value (h_method h)) (req_method req)
  && matches (match_ parsedRequest).

(** [(mask && parsedRequest.match.params) || {}], line 75: the guarded
    value is a mapping or falsy, and a falsy one gives the empty object. *)
Definition public_params (mask : Mask) (parsedRequest : ParsedRestRequest)
    : RequestParams :=
  match (if mask_truthy mask then params (match_ parsedRequest) else None) with
  | Some p => p
  | None => ∅
  end.

(** The object literal [{ ...req, params }], lines 77-80: every property
    of [req] is copied, then [params] is set. *)
Definition spread_with_params (req : MockedRequest) (p : RequestParams)
    : MockedRequest :=
  {| req_url := req_url req;
     req_method := req_method req;
     req_headers := req_headers req;
     req_referrer := req_referrer req;
     req_body := req_body req;
     req_params := Some p |}.

(** [getPublicRequest(req, parsedRequest)], lines 73-81; the result is a
    reference to the new object. *)
Definition getPublicRequest (h : Handler) (req : MockedRequest)
    (parsedRequest : ParsedRestRequest) : JsM loc :=
  let params := public_params (h_mask h) parsedRequest in
  alloc (spread_with_params req params).

(** [defineContext()], lines 84-86. *)
Definition defineContext (h : Handler) (_ : unit) : list (string * ContextFn) :=
  restContext.

(** The names pushed to [queryParams], lines 91-94: the callback of
    [forEach] receives the value first and the name second. *)
Definition queryParams (u : URL) : list string :=
  map (fun '(paramName, _) => paramName) (searchParams u).

(** The template literal of lines 97-109. *)
Definition redundant_query_message (method : RESTMethods) (mask : Mask)
    (resolvedMask : URL) : string :=
  "[MSW] Found a redundant usage of query parameters in the request handler URL for "
  ++ Js.dquote ++ method_value method ++ " " ++ mask_toString mask ++ Js.dquote
  ++ ". Please match against a path instead, and access query parameters in the response resolver function:"
  ++ Js.newline ++ Js.newline
  ++ "rest." ++ Js.toLowerCase (method_value method) ++ "("
  ++ Js.dquote ++ pathname resolvedMask ++ Js.dquote
  ++ ", (req, res, ctx) => {" ++ Js.newline
  ++ "  const query = req.url.searchParams" ++ Js.newline
  ++ Js.join Js.newline
       (map (fun paramName =>
               "  const " ++ paramName ++ " = query.get("
               ++ Js.dquote ++ paramName ++ Js.dquote ++ ")")
            (queryParams resolvedMask))
  ++ Js.newline ++ "})".

(** Whether a resolved mask meets the condition of line 90: it is a URL
    object and its [search] is not the empty string. *)
Definition has_redundant_query (resolvedMask : Mask) : bool :=
  match resolvedMask with
  | MaskURL u => negb (String.eqb (search u) EmptyString)
  | MaskString _ | MaskRegExp _ => false
  end.

(** The warning block of [log], lines 89-111. *)
Definition warn_redundant_query (h : Handler) : JsM unit :=
  match h_resolvedMask h with
  | MaskURL u =>
      if negb (String.eqb (search u) EmptyString)
      then console (Warn (redundant_query_message (h_method h) (h_mask h) u))
      else ret tt
  | MaskString _ | MaskRegExp _ => ret tt
  end.

(** [publicUrl], lines 113-120. *)
Definition publicUrl (req : MockedRequest) : string :=
  let isRelativeRequest :=
    Js.startsWith (req_referrer req) (origin (req_url req)) in
  if isRelativeRequest
  then pathname (req_url req)
  else format {| uo_protocol := protocol (req_url req);
                 uo_host := host (req_url req);
                 uo_pathname := pathname (req_url req) |}.

(** [log(req, res, handler)], lines 88-141. *)
Definition log (h : Handler) (req : MockedRequest) (res : MockedResponse)
    (handler : Handler) : JsM unit :=
  warn_redundant_query h ;;
  let publicUrl := publicUrl req in
  let loggedRequest := prepareRequest req in
  let loggedResponse := prepareResponse res in
  timestamp <- call_ext (fun e => let (t, e') := getTimestamp e in (Returned t, e')) ;;
  console (GroupCollapsed
             [ AString "[MSW] %s %s %s (%c%s%c)";
               AString timestamp;
               AString (req_method req);
               AString publicUrl;
               AString ("color:" ++ getStatusCodeColor (res_status res));
               ANumber (res_status res);
               AString "color:inherit" ]) ;;
  console (Log [AString "Request"; ARequest loggedRequest]) ;;
  console (Log [AString "Handler:"; AHandler (h_mask h) (resolver handler)]) ;;
  console (Log [AString "Response"; AResponse loggedResponse]) ;;
  console GroupEnd.

(** [createRestHandler(method)(mask, resolver)], lines 52-144. *)
Definition createRestHandler (method : RESTMethods) (mask : Mask)
    (resolver : Resolver) : JsM Handler :=
  let resolvedMask := resolveMask mask in
  ret {| h_method := method;
         h_mask := mask;
         h_resolvedMask := resolvedMask;
         resolver := resolver |}.

(** The exported object [rest], lines 146-153. *)
Record Rest := {
  rest_get : Mask -> Resolver -> JsM Handler;
  rest_post : Mask -> Resolver -> JsM Handler;
  rest_put : Mask -> Resolver -> JsM Handler;
  rest_delete : Mask -> Resolver -> JsM Handler;
  rest_patch : Mask -> Resolver -> JsM Handler;
  rest_options : Mask -> Resolver -> JsM Handler
}.

Definition rest : Rest :=
  {| rest_get := createRestHandler GET;
     rest_post := createRestHandler POST;
     rest_put := createRestHandler PUT;
     rest_delete := createRestHandler DELETE;
     rest_patch := createRestHandler PATCH;
     rest_options := createRestHandler OPTIONS |}.

(** The six factories of [rest]. *)
Definition factories : list (Mask -> Resolver -> JsM Handler) :=
  [ rest_get rest; rest_post rest; rest_put rest;
    rest_delete rest; rest_patch rest; rest_options rest ].

(** The URLs of the log entries on a console: the fourth argument of each
    [console.groupCollapsed] call. *)
Definition entry_url (c : ConsoleCall Resolver LoggedRequest LoggedResponse)
    : option string :=
  match c with
  | GroupCollapsed (_ :: _ :: _ :: AString url :: _) => Some url
  | _ => None
  end.

Definition logged_urls (cs : list (ConsoleCall Resolver LoggedRequest LoggedResponse))
    : list string :=
  omap entry_url cs.

(** What a call of [log] sends to the console: first the calls of the
    warning block, one warning or none, *)
Definition warning_calls (h : Handler)
    : list (ConsoleCall Resolver LoggedRequest LoggedResponse) :=
  match h_resolvedMask h with
  | MaskURL u =>
      if negb (String.eqb (search u) EmptyString)
      then [Warn (redundant_query_message (h_method h) (h_mask h) u)]
      else []
  | MaskString _ | MaskRegExp _ => []
  end.

(** then the five calls of the log entry, lines 125-140. *)
Definition entry_calls (h : Handler) (req : MockedRequest) (res : MockedResponse)
    (handler : Handler) (timestamp : string)
    : list (ConsoleCall Resolver LoggedRequest LoggedResponse) :=
  [ GroupCollapsed
      [ AString "[MSW] %s %s %s (%c%s%c)";
        AString timestamp;
        AString (req_method req);
        AString (publicUrl req);
        AString ("color:" ++ getStatusCodeColor (res_status res));
        ANumber (res_status res);
        AString "color:inherit" ];
    Log [AString "Request"; ARequest (prepareRequest req)];
    Log [AString "Handler:"; AHandler (h_mask h) (resolver handler)];
    Log [AString "Response"; AResponse (prepareResponse res)];
    GroupEnd ].


(** The number of console groups left open by a sequence of calls;
    [console.groupEnd()] does nothing when no group is open. *)
Definition group_step (depth : nat)
    (c : ConsoleCall Resolver LoggedRequest LoggedResponse) : nat :=
  match c with
  | GroupCollapsed _ => S depth
  | GroupEnd => Nat.pred depth
  | Warn _ | Log _ => depth
  end.

Definition group_depth (cs : list (ConsoleCall Resolver LoggedRequest LoggedResponse))
    : nat :=
  fold_left group_step cs 0.

(** The handler objects shown on a console: the mask and the resolver of
    each object literal logged by line 135. *)
Definition entry_handler (c : ConsoleCall Resolver LoggedRequest LoggedResponse)
    : option (Mask * Resolver) :=
  match c with
  | Log (_ :: AHandler mask resolver :: _) => Some (mask, resolver)
  | _ => None
  end.

Definition logged_handlers (cs : list (ConsoleCall Resolver LoggedRequest LoggedResponse))
    : list (Mask * Resolver) :=
  omap entry_handler cs.

(** [log] called for one exchange after another on the same descriptor, the
    descriptor itself being passed as [handler]. *)
Fixpoint log_all (h : Handler) (exchanges : list (MockedRequest * MockedResponse))
    : JsM unit :=
  match exchanges with
  | [] => ret tt
  | (req, res) :: rest => log h req res h ;; log_all h rest
  end.

(** Modelled from the spec: the interception layer that drives a descriptor
    is not part of [rest.ts]. Sections 2, 4.3 and 6 fix the order: parse,
    predicate, and only when the predicate holds: project, resolve with the
    context from [defineContext], then log. Nothing is caught on the way. *)
Definition handleRequest (h : Handler) (req : MockedRequest)
    : JsM (option MockedResponse) :=
  parsedRequest <- parse h req ;;
  if predicate h req parsedRequest then
    publicRequest <- getPublicRequest h req parsedRequest ;;
    response <- call_resolver (resolver h) publicRequest (defineContext h tt) ;;
    log h req response h ;;
    ret (Some response)
  else ret None.

End Rest.

(** ** A concrete set of collaborators

    Small stand-ins for the imported modules, used to run the handlers on
    concrete requests. *)

Module Sample.

Inductive resolver_fn := respond_ok | throw_boom.

Definition ok_response : MockedResponse :=
  {| res_status := 200; res_statusText := "OK"; res_headers := []; res_body := None |}.

(** An exact matcher: a string mask matches the path or the whole URL, a
    URL mask matches on origin and path; no parameters are extracted. *)
Definition exact_match (url : URL) (mask : Mask) : MatchResult :=
  let ok :=
    match mask with
    | MaskString s => String.eqb s (pathname url) || String.eqb s (href url)
    | MaskRegExp _ => false
    | MaskURL u => String.eqb (origin u ++ pathname u) (origin url ++ pathname url)
    end in
  {| matches := ok; params := if ok then Some ∅ else None |}.

Definition node_format (o : UrlObject) : string :=
  uo_protocol o ++ "//" ++ uo_host o ++ uo_pathname o.

Definition status_color (status : Z) : string :=
  if (status <? 300)%Z then "green" else if (status <? 400)%Z then "orange" else "red".

Abbreviation world := (World nat resolver_fn (string * string) Z).

Definition run_resolver (r : resolver_fn) (publicRequest : loc)
    (ctx : list (string * ContextFn))
    : M nat string resolver_fn (string * string) Z MockedResponse :=
  match r with
  | respond_ok => ret ok_response
  | throw_boom => fun w => (Threw "boom", w)
  end.

(** The collaborator state is a clock tick. *)
#[export] Instance imports : Imports nat string resolver_fn (string * string) Z :=
  {| isStringEqual a b := String.eqb (Js.toLowerCase a) (Js.toLowerCase b);
     matchRequestUrl url mask e := (Returned (exact_match url mask), e);
     resolveMask mask := mask;
     format := node_format;
     prepareRequest req := (req_method req, href (req_url req));
     prepareResponse res := res_status res;
     getTimestamp e := ("12:00:00", S e);
     getStatusCodeColor := status_color;
     call_resolver := run_resolver |}.

(** A matcher that keeps state between calls, as a global regular
    expression does with [lastIndex]: it answers by the parity of the
    number of calls made so far. *)
Definition flaky_imports : Imports nat string resolver_fn (string * string) Z :=
  {| isStringEqual a b := String.eqb (Js.toLowerCase a) (Js.toLowerCase b);
     matchRequestUrl url mask e :=
       (Returned {| matches := Nat.even e; params := Some ∅ |}, S e);
     resolveMask mask := mask;
     format := node_format;
     prepareRequest req := (req_method req, href (req_url req));
     prepareResponse res := res_status res;
     getTimestamp e := ("12:00:00", e);
     getStatusCodeColor := status_color;
     call_resolver := run_resolver |}.

Definition w0 : world := {| w_ext := 0; w_console := []; w_heap := ∅ |}.

(** [new URL('https://api.test/search?q=1')] *)
Definition api_search : URL :=
  {| href := "https://api.test/search?q=1";
     origin := "https://api.test";
     protocol := "https:";
     host := "api.test";
     pathname := "/search";
     search := "?q=1";
     searchParams := [("q", "1")];
     hash := EmptyString |}.

(** [new URL('http://localhost:3000/user/42')] *)
Definition user_42 : URL :=
  {| href := "http://localhost:3000/user/42";
     origin := "http://localhost:3000";
     protocol := "http:";
     host := "localhost:3000";
     pathname := "/user/42";
     search := EmptyString;
     searchParams := [];
     hash := EmptyString |}.

Definition request (method : string) (url : URL) (referrer : string) : MockedRequest :=
  {| req_url := url;
     req_method := method;
     req_headers := [];
     req_referrer := referrer;
     req_body := None;
     req_params := None |}.

(** A page of the same origin asks for [/user/42]. *)
Definition get_user : MockedRequest :=
  request "GET" user_42 "http://localhost:3000/".

(** The same URL, posted with a body from another page. *)
Definition post_user : MockedRequest :=
  {| req_url := user_42;
     req_method := "POST";
     req_headers := [("content-type", "text/plain")];
     req_referrer := "http://localhost:3000/form";
     req_body := Some "hello";
     req_params := None |}.

(** Requests to another origin, with and without a referrer. *)
Definition get_search : MockedRequest :=
  request "GET" api_search "http://localhost:3000/".

Definition get_search_no_referrer : MockedRequest :=
  request "GET" api_search EmptyString.

Definition get_search_other_query : MockedRequest :=
  request "GET"
    {| href := "https://api.test/search?secret=abc";
       origin := "https://api.test";
       protocol := "https:";
       host := "api.test";
       pathname := "/search";
       search := "?secret=abc";
       searchParams := [("secret", "abc")];
       hash := EmptyString |}
    "http://localhost:3000/".

Definition id_42 : gmap string string := {[ "id" := "42" ]}.

(** The descriptor of [rest.get('/user/:id', resolver)], and the parsed
    state of a request for [/user/42] under a matcher that extracts [id]. *)
Definition user_id_handler : RestHandler resolver_fn :=
  {| h_method := GET;
     h_mask := MaskString "/user/:id";
     h_resolvedMask := MaskString "/user/:id";
     resolver := respond_ok |}.

Definition matched_42 : ParsedRestRequest :=
  {| match_ := {| matches := true; params := Some id_42 |} |}.

(** A world in which the incoming request lives at address 5. *)
Definition w_with_request : world :=
  {| w_ext := 0; w_console := []; w_heap := {[ 5 := get_user ]} |}.

(** [new URL('http://localhost:3000/user/42?tab=posts#top')] *)
Definition user_42_posts : URL :=
  {| href := "http://localhost:3000/user/42?tab=posts#top";
     origin := "http://localhost:3000";
     protocol := "http:";
     host := "localhost:3000";
     pathname := "/user/42";
     search := "?tab=posts";
     searchParams := [("tab", "posts")];
     hash := "#top" |}.

Definition get_user_posts : MockedRequest :=
  request "GET" user_42_posts "http://localhost:3000/".

(** A request for [/user/42] made by a page served from port 30001: the
    referrer is of another origin, yet begins with the characters of the
    origin of the request URL. *)
Definition get_user_from_port_30001 : MockedRequest :=
  request "GET" user_42 "http://localhost:30001/other".

(** The descriptor of [rest.get('', resolver)]. *)
Definition empty_mask_handler : RestHandler resolver_fn :=
  {| h_method := GET;
     h_mask := MaskString EmptyString;
     h_resolvedMask := MaskString EmptyString;
     resolver := respond_ok |}.


(** A descriptor of another factory, with a resolver that throws. *)
Definition login_handler : RestHandler resolver_fn :=
  {| h_method := POST;
     h_mask := MaskString "/login";
     h_resolvedMask := MaskString "/login";
     resolver := throw_boom |}.

(** [rest.get('https://api.test/search?q=1', resolver)], the mask given as
    a string: once with the mask resolved to a URL object, once with the
    string left as it is. *)
Definition search_string_resolved : RestHandler resolver_fn :=
  {| h_method := GET;
     h_mask := MaskString "https://api.test/search?q=1";
     h_resolvedMask := MaskURL api_search;
     resolver := respond_ok |}.

Definition search_string_unresolved : RestHandler resolver_fn :=
  {| h_method := GET;
     h_mask := MaskString "https://api.test/search?q=1";
     h_resolvedMask := MaskString "https://api.test/search?q=1";
     resolver := respond_ok |}.

End Sample.

(** ** Properties *)

Section RestProperties.

Context {Ext Thrown Resolver LoggedRequest LoggedResponse : Type}.
Context `{!Imports Ext Thrown Resolver LoggedRequest LoggedResponse}.

Local Abbreviation JsM A := (M Ext Thrown Resolver LoggedRequest LoggedResponse A).
Local Abbreviation Handler := (RestHandler Resolver).
Local Abbreviation Wld := (World Ext Resolver LoggedRequest LoggedResponse).
Local Abbreviation Call := (ConsoleCall Resolver LoggedRequest LoggedResponse).

Implicit Types (h handler : Handler) (req : MockedRequest) (res : MockedResponse).
Implicit Types (w : Wld) (mask : Mask) (method : RESTMethods).

(** *** The monad *)

Lemma bind_returned {A B} (m : JsM A) (k : A -> JsM B) w a w' :
  m w = (Returned a, w') -> bind m k w = k a w'.
Proof. intros Hm. unfold bind. now rewrite Hm. Qed.

Lemma bind_threw {A B} (m : JsM A) (k : A -> JsM B) w e w' :
  m w = (Threw e, w') -> bind m k w = (Threw e, w').
Proof. intros Hm. unfold bind. now rewrite Hm. Qed.

Lemma warnings_app (cs1 cs2 : list Call) :
  warnings (cs1 ++ cs2) = warnings cs1 + warnings cs2.
Proof. unfold warnings. now rewrite filter_app, length_app. Qed.

Lemma logged_urls_app (cs1 cs2 : list Call) :
  logged_urls (cs1 ++ cs2) = (logged_urls cs1 ++ logged_urls cs2)%list.
Proof. apply omap_app. Qed.

(** *** Construction *)

(** Building a descriptor returns the closure environment and touches
    nothing in the world. *)
Lemma createRestHandler_run method mask (r : Resolver) w :
  createRestHandler method mask r w =
  (Returned {| h_method := method; h_mask := mask;
               h_resolvedMask := resolveMask mask; resolver := r |}, w).
Proof. reflexivity. Qed.

(** *** The warning block *)

Lemma has_redundant_query_spec (resolvedMask : Mask) :
  has_redundant_query resolvedMask = true <->
  exists u, resolvedMask = MaskURL u /\ search u <> EmptyString.
Proof.
  destruct resolvedMask as [s|r|u]; simpl.
  - split; [discriminate | intros (u & Hu & _); discriminate].
  - split; [discriminate | intros (u & Hu & _); discriminate].
  - rewrite negb_true_iff, String.eqb_neq. split.
    + intros Hne. now exists u.
    + intros (u' & [= <-] & Hne). exact Hne.
Qed.

Lemma warn_redundant_query_run h w :
  (warn_redundant_query h : JsM unit) w =
  (Returned tt,
   {| w_ext := w_ext w;
      w_console := w_console w ++ warning_calls h;
      w_heap := w_heap w |}).
Proof.
  unfold warn_redundant_query, warning_calls.
  destruct w as [e cs hp]; simpl.
  destruct (h_resolvedMask h) as [s|r|u]; unfold ret; simpl;
    rewrite ?app_nil_r; try reflexivity.
  destruct (negb _); unfold console, ret; simpl; now rewrite ?app_nil_r.
Qed.

Lemma warnings_warning_calls h :
  warnings (warning_calls h : list Call) =
  if has_redundant_query (h_resolvedMask h) then 1 else 0.
Proof.
  unfold warning_calls, has_redundant_query.
  destruct (h_resolvedMask h) as [s|r|u]; try reflexivity.
  now destruct (negb _).
Qed.

Lemma logged_urls_warning_calls h :
  logged_urls (warning_calls h : list Call) = [].
Proof.
  unfold warning_calls.
  destruct (h_resolvedMask h) as [s|r|u]; try reflexivity.
  now destruct (negb _).
Qed.

Lemma warnings_entry_calls h req res handler timestamp :
  warnings (entry_calls h req res handler timestamp) = 0.
Proof. reflexivity. Qed.

Lemma logged_urls_entry_calls h req res handler timestamp :
  logged_urls (entry_calls h req res handler timestamp) = [publicUrl req].
Proof. reflexivity. Qed.

(** *** [log], run to the end *)

(** [log] always returns; it reads the clock once and appends the warning
    (if any) and the entry to the console, leaving the heap alone. *)
Lemma log_run h req res handler w :
  log h req res handler w =
  (Returned tt,
   {| w_ext := snd (getTimestamp (w_ext w));
      w_console := w_console w ++ warning_calls h
                   ++ entry_calls h req res handler (fst (getTimestamp (w_ext w)));
      w_heap := w_heap w |}).
Proof.
  unfold log.
  rewrite (bind_returned _ _ _ _ _ (warn_redundant_query_run h w)).
  unfold bind, call_ext, console, entry_calls; simpl.
  destruct (getTimestamp (w_ext w)) as [t e']; simpl.
  repeat rewrite <- app_assoc. reflexivity.
Qed.

(** *** Claims *)

(** C1 (as amended): the redundant-query-parameter warning belongs to
    [log], not to construction. Any of the factories returns its descriptor
    leaving the world, and so the console, exactly as it was; every later
    call of [log] on that descriptor returns and adds to the console one
    warning when the resolved mask is a URL whose [search] is not empty,
    and none when the resolved mask is a string, a regular expression or a
    URL with an empty [search]. *)
Theorem log_warns_on_redundant_query method mask (r : Resolver) w0 :
  exists h,
    createRestHandler method mask r w0 = (Returned h, w0) /\
    forall req res handler w,
    exists w',
      log h req res handler w = (Returned tt, w') /\
      warnings (w_console w') =
        warnings (w_console w) +
        match resolveMask mask with
        | MaskURL u => if String.eqb (search u) EmptyString then 0 else 1
        | MaskString _ | MaskRegExp _ => 0
        end.
Proof.
  eexists. split; [apply createRestHandler_run|].
  intros req res handler w. eexists. split; [apply log_run|].
  simpl. rewrite !warnings_app, warnings_warning_calls, warnings_entry_calls.
  unfold has_redundant_query; simpl.
  destruct (resolveMask mask) as [s|r'|u]; simpl; try lia.
  destruct (String.eqb (search u) EmptyString); simpl; lia.
Qed.

(** C2: for a descriptor of any method factory and a request on which the
    matcher returns [m], [parse] returns a parsed state, and [predicate] on
    that state is true exactly when [isStringEqual(method, req.method)]
    holds and [m.matches] is true. *)
Theorem predicate_after_parse method mask (r : Resolver) w0 :
  exists h,
    createRestHandler method mask r w0 = (Returned h, w0) /\
    forall req w m e',
      matchRequestUrl (req_url req) mask (w_ext w) = (Returned m, e') ->
      exists parsedRequest w',
        parse h req w = (Returned parsedRequest, w') /\
        (predicate h req parsedRequest = true <->
         isStringEqual (method_value method) (req_method req) = true /\
         matches m = true).
Proof.
  eexists. split; [apply createRestHandler_run|].
  intros req w m e' Hm.
  exists {| match_ := m |}. eexists. split.
  - unfold parse, bind, call_ext, ret; simpl. rewrite Hm. reflexivity.
  - unfold predicate; simpl. apply andb_true_iff.
Qed.

(** C3: [getPublicRequest] returns a new object that has every property of
    [req] unchanged and a [params] property, which is never missing:
    it is the matcher's mapping when the mask is truthy (and the matcher
    produced a mapping), and the empty mapping when the mask is falsy or
    the matcher produced none. *)
Theorem getPublicRequest_params h req (parsedRequest : ParsedRestRequest) w :
  exists (publicRequest : loc) (w' : Wld) (copy : MockedRequest) (p : RequestParams),
    (getPublicRequest h req parsedRequest : JsM loc) w
      = (Returned publicRequest, w') /\
    w_heap w !! publicRequest = None /\
    w_heap w' !! publicRequest = Some copy /\
    req_url copy = req_url req /\
    req_method copy = req_method req /\
    req_headers copy = req_headers req /\
    req_referrer copy = req_referrer req /\
    req_body copy = req_body req /\
    req_params copy = Some p /\
    (mask_truthy (h_mask h) = true ->
     forall q, params (match_ parsedRequest) = Some q -> p = q) /\
    (mask_truthy (h_mask h) = true ->
     params (match_ parsedRequest) = None -> p = ∅) /\
    (mask_truthy (h_mask h) = false -> p = ∅).
Proof.
  exists (fresh (dom (w_heap w))). eexists. eexists. eexists.
  split; [reflexivity|]. simpl.
  split; [apply not_elem_of_dom, is_fresh|].
  split; [apply lookup_insert_eq|].
  repeat (split; [reflexivity|]).
  unfold public_params.
  destruct (mask_truthy (h_mask h)); repeat split; try discriminate; try reflexivity.
  - intros _ q ->. reflexivity.
  - intros _ ->. reflexivity.
Qed.

(** C4: the descriptor's [resolver] is the function it was given, as it
    is. When that resolver throws [x] on a matched request, the whole
    handling of the request throws the same [x], and the world it ends in
    is the one the resolver left: [log] has made no call. *)
Theorem resolver_throw_propagates method mask (r : Resolver) w0 :
  exists h,
    createRestHandler method mask r w0 = (Returned h, w0) /\
    resolver h = r /\
    forall req w parsedRequest w1 publicRequest w2 (x : Thrown) w3,
      parse h req w = (Returned parsedRequest, w1) ->
      predicate h req parsedRequest = true ->
      (getPublicRequest h req parsedRequest : JsM loc) w1
        = (Returned publicRequest, w2) ->
      call_resolver r publicRequest (defineContext h tt) w2 = (Threw x, w3) ->
      handleRequest h req w = (Threw x, w3).
Proof.
  eexists. split; [apply createRestHandler_run|]. split; [reflexivity|].
  intros req w parsedRequest w1 publicRequest w2 x w3 Hparse Hpred Hpub Hthrow.
  unfold handleRequest.
  rewrite (bind_returned _ _ _ _ _ Hparse), Hpred.
  rewrite (bind_returned _ _ _ _ _ Hpub).
  now rewrite (bind_threw _ _ _ _ _ Hthrow).
Qed.

(** C5: [log] adds one entry to the console, and the URL shown in it is the
    request URL's [pathname] when the referrer starts with the URL's
    [origin], and [format] of the URL's protocol, host and pathname
    otherwise. *)
Theorem log_public_url h req res handler w :
  exists w',
    log h req res handler w = (Returned tt, w') /\
    logged_urls (w_console w') =
      (logged_urls (w_console w) ++
       [ if Js.startsWith (req_referrer req) (origin (req_url req))
         then pathname (req_url req)
         else format {| uo_protocol := protocol (req_url req);
                        uo_host := host (req_url req);
                        uo_pathname := pathname (req_url req) |} ])%list.
Proof.
  eexists. split; [apply log_run|]. simpl.
  now rewrite !logged_urls_app, logged_urls_warning_calls, logged_urls_entry_calls.
Qed.

(** A request without a referrer is never taken for a same-origin one. *)
Lemma empty_referrer_not_relative req :
  req_referrer req = EmptyString ->
  origin (req_url req) <> EmptyString ->
  Js.startsWith (req_referrer req) (origin (req_url req)) = false.
Proof.
  intros -> Hne. unfold Js.startsWith.
  destruct (origin (req_url req)); [contradiction | reflexivity].
Qed.

(** C6: each of the six factories of [rest] returns a descriptor whose
    [defineContext()] is the one [restContext], and the members of
    [restContext] are exactly set, status, cookie, body, text, json, xml,
    delay and fetch. *)
Theorem defineContext_same_toolkit :
  Forall (fun factory =>
            forall mask (r : Resolver) w,
            exists h,
              factory mask r w = (Returned h, w) /\
              defineContext h tt = restContext)
         factories /\
  restContext.*1 =
    ["set"; "status"; "cookie"; "body"; "text"; "json"; "xml"; "delay"; "fetch"] /\
  NoDup (restContext.*1).
Proof.
  split.
  - unfold factories, rest; simpl.
    repeat constructor; intros mask r w;
      (eexists; split; [apply createRestHandler_run | reflexivity]).
  - split; [reflexivity|].
    compute_done.
Qed.

(** [parse] returns what the matcher returns and throws what it throws. *)
Lemma parse_outcome h req w :
  fst (parse h req w) =
  match fst (matchRequestUrl (req_url req) (h_mask h) (w_ext w)) with
  | Returned m => Returned {| match_ := m |}
  | Threw x => Threw x
  end.
Proof.
  unfold parse, bind, call_ext, ret.
  destruct (matchRequestUrl _ _ _) as [[m|x] e']; reflexivity.
Qed.

(** C7: when the matcher's answer does not depend on its own state, two
    calls of [parse] in a row on the same request end alike, and the two
    parsed states carry the same [matches] flag and the same [params]. *)
Theorem parse_twice_same_match h req w :
  (forall url mask e e',
     fst (matchRequestUrl url mask e) = fst (matchRequestUrl url mask e')) ->
  forall o1 w1 o2 w2,
    parse h req w = (o1, w1) ->
    parse h req w1 = (o2, w2) ->
    o1 = o2 /\
    forall p1 p2,
      o1 = Returned p1 -> o2 = Returned p2 ->
      matches (match_ p1) = matches (match_ p2) /\
      params (match_ p1) = params (match_ p2).
Proof.
  intros Hpure o1 w1 o2 w2 H1 H2.
  assert (Heq : o1 = o2).
  { pose proof (parse_outcome h req w) as E1.
    pose proof (parse_outcome h req w1) as E2.
    rewrite H1 in E1. rewrite H2 in E2. simpl in E1, E2.
    rewrite E1, E2. now rewrite (Hpure _ _ (w_ext w) (w_ext w1)). }
  split; [exact Heq|].
  intros p1 p2 -> ->. injection Heq as ->. split; reflexivity.
Qed.

(** C8: [getPublicRequest] builds its result at an address of its own.
    The object [req] was read from is still there afterwards, the same in
    every property (its [params] included), and so is every other object;
    the console and the collaborators are not touched. *)
Theorem getPublicRequest_leaves_request h req (parsedRequest : ParsedRestRequest)
    w (original : loc) :
  w_heap w !! original = Some req ->
  exists (publicRequest : loc) (w' : Wld),
    (getPublicRequest h req parsedRequest : JsM loc) w
      = (Returned publicRequest, w') /\
    publicRequest <> original /\
    w_heap w' !! original = Some req /\
    (forall l : loc, l <> publicRequest -> w_heap w' !! l = w_heap w !! l) /\
    w_ext w' = w_ext w /\
    w_console w' = w_console w.
Proof.
  intros Hreq.
  assert (Hfresh : fresh (dom (w_heap w)) <> original).
  { intros Heq. apply (is_fresh (dom (w_heap w))).
    rewrite Heq. apply elem_of_dom. now exists req. }
  exists (fresh (dom (w_heap w))). eexists.
  split; [reflexivity|]. simpl.
  split; [exact Hfresh|].
  split; [now rewrite lookup_insert_ne|].
  split; [|split; reflexivity].
  intros l Hl. now rewrite lookup_insert_ne.
Qed.

(** C9: what [parse] does depends on the request through its [url] only:
    two requests with the same [url] get the same outcome, parsed state
    and world, whatever their method, headers, body and referrer. *)
Theorem parse_same_url h req1 req2 w :
  req_url req1 = req_url req2 ->
  parse h req1 w = parse h req2 w.
Proof. intros Hurl. unfold parse. now rewrite Hurl. Qed.

(** C10: for a request whose referrer does not start with its URL's origin
    the URL shown in the log entry is [format] of the protocol, host and
    pathname of the request URL and of nothing else: a second such request
    with the same three components is shown under the same URL, whatever
    the query strings of the two. *)
Theorem cross_origin_url_without_query h req1 req2 res handler w :
  Js.startsWith (req_referrer req1) (origin (req_url req1)) = false ->
  Js.startsWith (req_referrer req2) (origin (req_url req2)) = false ->
  protocol (req_url req1) = protocol (req_url req2) ->
  host (req_url req1) = host (req_url req2) ->
  pathname (req_url req1) = pathname (req_url req2) ->
  exists w1 w2 url,
    url = format {| uo_protocol := protocol (req_url req1);
                    uo_host := host (req_url req1);
                    uo_pathname := pathname (req_url req1) |} /\
    log h req1 res handler w = (Returned tt, w1) /\
    log h req2 res handler w = (Returned tt, w2) /\
    logged_urls (w_console w1) = (logged_urls (w_console w) ++ [url])%list /\
    logged_urls (w_console w2) = (logged_urls (w_console w) ++ [url])%list.
Proof.
  intros Hcross1 Hcross2 Hprotocol Hhost Hpath.
  destruct (log_public_url h req1 res handler w) as (w1 & Hlog1 & Hurl1).
  destruct (log_public_url h req2 res handler w) as (w2 & Hlog2 & Hurl2).
  rewrite Hcross1 in Hurl1. rewrite Hcross2 in Hurl2.
  rewrite <- Hprotocol, <- Hhost, <- Hpath in Hurl2.
  exists w1, w2. eexists. repeat split; eassumption.
Qed.

(** *** Further properties of the handlers *)

(** Strings. *)

Lemma string_app_assoc (a b c : string) : (a ++ b) ++ c = a ++ b ++ c.
Proof.
  induction a as [|x a IH]; [reflexivity|].
  change (String x ((a ++ b) ++ c) = String x (a ++ b ++ c)).
  now rewrite IH.
Qed.

Lemma startsWith_app (s rest : string) : Js.startsWith (s ++ rest) s = true.
Proof.
  unfold Js.startsWith.
  induction s as [|x s IH].
  - change (String.prefix EmptyString rest = true). now destruct rest.
  - change (String.prefix (String x s) (String x (s ++ rest)) = true).
    simpl. rewrite IH. now destruct (ascii_dec x x).
Qed.

Lemma includes_start (part rest s : string) :
  s = part ++ rest -> includes s part.
Proof. intros ->. now exists EmptyString, rest. Qed.

Lemma includes_after (a s part : string) :
  includes s part -> includes (a ++ s) part.
Proof.
  intros (before & after & ->). exists (a ++ before), after.
  now rewrite string_app_assoc.
Qed.



(** The parts of the warning text. *)

Lemma message_quotes_method_and_mask method mask (u : URL) :
  includes (redundant_query_message method mask u)
    (Js.dquote ++ method_value method ++ " " ++ mask_toString mask ++ Js.dquote).
Proof.
  unfold redundant_query_message.
  apply includes_after.
  eapply includes_start. rewrite !string_app_assoc. reflexivity.
Qed.

Lemma message_suggests_pathname method mask (u : URL) :
  includes (redundant_query_message method mask u)
    ("rest." ++ Js.toLowerCase (method_value method) ++ "("
     ++ Js.dquote ++ pathname u ++ Js.dquote).
Proof.
  unfold redundant_query_message.
  do 9 apply includes_after.
  eapply includes_start. rewrite !string_app_assoc. reflexivity.
Qed.


Lemma warning_calls_redundant h (u : URL) :
  h_resolvedMask h = MaskURL u ->
  search u <> EmptyString ->
  (warning_calls h : list Call)
  = [Warn (redundant_query_message (h_method h) (h_mask h) u)].
Proof.
  intros Hu Hsearch. unfold warning_calls. rewrite Hu.
  apply String.eqb_neq in Hsearch. now rewrite Hsearch.
Qed.

(** Console bookkeeping. *)

Lemma group_depth_app (cs1 cs2 : list Call) :
  group_depth (cs1 ++ cs2) = fold_left group_step cs2 (group_depth cs1).
Proof. apply fold_left_app. Qed.

Lemma group_step_warning_calls h (d : nat) :
  fold_left group_step (warning_calls h : list Call) d = d.
Proof.
  unfold warning_calls.
  destruct (h_resolvedMask h) as [s|r|u]; try reflexivity.
  now destruct (negb _).
Qed.

Lemma group_step_entry_calls h req res handler timestamp (d : nat) :
  fold_left group_step (entry_calls h req res handler timestamp) d = d.
Proof. reflexivity. Qed.

Lemma logged_handlers_app (cs1 cs2 : list Call) :
  logged_handlers (cs1 ++ cs2) = (logged_handlers cs1 ++ logged_handlers cs2)%list.
Proof. apply omap_app. Qed.

Lemma logged_handlers_warning_calls h :
  logged_handlers (warning_calls h : list Call) = [].
Proof.
  unfold warning_calls.
  destruct (h_resolvedMask h) as [s|r|u]; try reflexivity.
  now destruct (negb _).
Qed.

Lemma logged_urls_after_log h req res handler w :
  logged_urls (w_console (snd (log h req res handler w)))
  = (logged_urls (w_console w) ++ [publicUrl req])%list.
Proof.
  rewrite log_run. simpl.
  now rewrite !logged_urls_app, logged_urls_warning_calls, logged_urls_entry_calls.
Qed.

Lemma mask_truthy_false mask :
  mask_truthy mask = false <-> mask = MaskString EmptyString.
Proof.
  destruct mask as [[|c s]|r|u]; simpl; split; congruence.
Qed.


(** X2: every call of [getPublicRequest] builds an object of its own. Two
    calls in a row for the same request return two different references;
    both objects are on the heap afterwards and both carry the properties
    of [req]. *)
Theorem getPublicRequest_twice_distinct h req (parsed1 parsed2 : ParsedRestRequest) w :
  exists (first second : loc) (w1 w2 : Wld),
    (getPublicRequest h req parsed1 : JsM loc) w = (Returned first, w1) /\
    (getPublicRequest h req parsed2 : JsM loc) w1 = (Returned second, w2) /\
    first <> second /\
    w_heap w2 !! first
      = Some (spread_with_params req (public_params (h_mask h) parsed1)) /\
    w_heap w2 !! second
      = Some (spread_with_params req (public_params (h_mask h) parsed2)).
Proof.
  do 4 eexists. split; [reflexivity|]. split; [reflexivity|]. simpl.
  set (first := fresh (dom (w_heap w))).
  set (copy := spread_with_params req (public_params (h_mask h) parsed1)).
  assert (Hne : first <> fresh (dom (<[first := copy]> (w_heap w)))).
  { intros Heq. apply (is_fresh (dom (<[first := copy]> (w_heap w)))).
    rewrite <- Heq. apply elem_of_dom. rewrite lookup_insert_eq. now exists copy. }
  split; [exact Hne|]. split.
  - rewrite lookup_insert_ne by congruence. apply lookup_insert_eq.
  - apply lookup_insert_eq.
Qed.

(** X3: the only mask under which a mapping extracted by the matcher is
    thrown away is the empty string: with it the public request gets the
    empty mapping, with any other mask it gets the matcher's mapping. *)
Theorem only_empty_string_mask_drops_params h req (parsedRequest : ParsedRestRequest)
    (extracted : RequestParams) w :
  params (match_ parsedRequest) = Some extracted ->
  exists (publicRequest : loc) (w' : Wld),
    (getPublicRequest h req parsedRequest : JsM loc) w
      = (Returned publicRequest, w') /\
    (h_mask h = MaskString EmptyString ->
     req_params <$> w_heap w' !! publicRequest = Some (Some ∅)) /\
    (h_mask h <> MaskString EmptyString ->
     req_params <$> w_heap w' !! publicRequest = Some (Some extracted)).
Proof.
  intros Hparams. do 2 eexists. split; [reflexivity|]. simpl.
  rewrite lookup_insert_eq. simpl. unfold public_params. rewrite Hparams.
  split.
  - intros ->. reflexivity.
  - intros Hmask. destruct (mask_truthy (h_mask h)) eqn:Htruthy; [reflexivity|].
    now apply mask_truthy_false in Htruthy.
Qed.


(** X5: [log] closes the console group it opens: as many groups are open
    after the call as before it. *)
Theorem log_keeps_group_depth h req res handler w :
  exists w',
    log h req res handler w = (Returned tt, w') /\
    group_depth (w_console w') = group_depth (w_console w).
Proof.
  eexists. split; [apply log_run|]. cbn [w_console].
  rewrite group_depth_app, fold_left_app.
  now rewrite group_step_entry_calls, group_step_warning_calls.
Qed.

(** X6: logging one exchange after another on a descriptor repeats the
    warning every time: after [n] exchanges the console has [n] more
    warnings when the resolved mask is a URL with a query string and no more
    otherwise; it shows the [n] request URLs in order, and the heap is as it
    was. *)
Theorem log_all_counts h (exchanges : list (MockedRequest * MockedResponse)) w :
  exists w',
    log_all h exchanges w = (Returned tt, w') /\
    warnings (w_console w') =
      warnings (w_console w)
      + length exchanges * (if has_redundant_query (h_resolvedMask h) then 1 else 0) /\
    logged_urls (w_console w') =
      (logged_urls (w_console w) ++ map (fun x => publicUrl (fst x)) exchanges)%list /\
    w_heap w' = w_heap w.
Proof.
  revert w. induction exchanges as [|[req res] rest IH]; intros w.
  - exists w. split; [reflexivity|]. simpl.
    split; [lia|]. split; [now rewrite app_nil_r | reflexivity].
  - pose proof (log_run h req res h w) as Hlog.
    destruct (IH (snd (log h req res h w))) as (w' & Hrest & Hwarn & Hurls & Hheap).
    exists w'. split.
    + simpl. rewrite (bind_returned _ _ _ _ _ Hlog).
      rewrite Hlog in Hrest. exact Hrest.
    + rewrite Hwarn, Hurls, Hheap, logged_urls_after_log.
      rewrite Hlog. simpl.
      rewrite !warnings_app, warnings_warning_calls, warnings_entry_calls.
      split; [lia|]. split; [now rewrite <- app_assoc | reflexivity].
Qed.

(** X7: the test for a same-origin request is one on the characters of the
    referrer: whenever the referrer is the origin of the request URL followed
    by anything at all, the entry shows the pathname alone. *)
Theorem referrer_with_origin_prefix_logs_path h req res handler w (rest : string) :
  req_referrer req = origin (req_url req) ++ rest ->
  exists w',
    log h req res handler w = (Returned tt, w') /\
    logged_urls (w_console w') =
      (logged_urls (w_console w) ++ [pathname (req_url req)])%list.
Proof.
  intros Hreferrer.
  exists (snd (log h req res handler w)). split.
  - now rewrite log_run.
  - rewrite logged_urls_after_log. unfold publicUrl.
    now rewrite Hreferrer, startsWith_app.
Qed.

(** X8: the URL shown in an entry is made from the referrer and from the
    origin, protocol, host and pathname of the request URL; the query string,
    the fragment and everything else about the request leave no trace in
    it, for same-origin requests as for the others. *)
Theorem logged_url_ignores_query_and_hash h req1 req2 res1 res2 handler1 handler2 w :
  req_referrer req1 = req_referrer req2 ->
  origin (req_url req1) = origin (req_url req2) ->
  protocol (req_url req1) = protocol (req_url req2) ->
  host (req_url req1) = host (req_url req2) ->
  pathname (req_url req1) = pathname (req_url req2) ->
  logged_urls (w_console (snd (log h req1 res1 handler1 w)))
  = logged_urls (w_console (snd (log h req2 res2 handler2 w))).
Proof.
  intros Hreferrer Horigin Hprotocol Hhost Hpath.
  rewrite !logged_urls_after_log. unfold publicUrl.
  now rewrite Hreferrer, Horigin, Hprotocol, Hhost, Hpath.
Qed.


(** X10: the warning quotes the method with the mask as the author wrote it,
    while the call it suggests is made of the lower-cased method and the
    pathname of the resolved mask. *)
Theorem warning_quotes_mask_and_suggests_path h (u : URL) req res handler w :
  h_resolvedMask h = MaskURL u ->
  search u <> EmptyString ->
  exists (message : string) (w' : Wld),
    log h req res handler w = (Returned tt, w') /\
    w_console w' =
      (w_console w ++ Warn message
         :: entry_calls h req res handler (fst (getTimestamp (w_ext w))))%list /\
    includes message
      (Js.dquote ++ method_value (h_method h) ++ " "
       ++ mask_toString (h_mask h) ++ Js.dquote) /\
    includes message
      ("rest." ++ Js.toLowerCase (method_value (h_method h)) ++ "("
       ++ Js.dquote ++ pathname u ++ Js.dquote).
Proof.
  intros Hu Hsearch.
  do 2 eexists. split; [apply log_run|]. simpl.
  rewrite (warning_calls_redundant h u Hu Hsearch).
  split; [reflexivity|].
  split; [apply message_quotes_method_and_mask | apply message_suggests_pathname].
Qed.

(** X11: the handler object shown in an entry is put together from two
    places: the mask is the one this descriptor was built with, the resolver
    is read from the [handler] argument. The mask of the argument and the
    resolver of the descriptor play no part. *)
Theorem log_shows_own_mask_and_given_resolver h req res handler w :
  exists w',
    log h req res handler w = (Returned tt, w') /\
    logged_handlers (w_console w') =
      (logged_handlers (w_console w) ++ [(h_mask h, resolver handler)])%list.
Proof.
  eexists. split; [apply log_run|]. simpl.
  now rewrite !logged_handlers_app, logged_handlers_warning_calls.
Qed.

(** X12: the resolved mask serves the warning and nothing else. Two
    descriptors with the same method and mask parse a request alike, decide
    alike, build the same public request and write the same entry, however
    their resolved masks differ. *)
Theorem resolved_mask_only_for_warning h1 h2 req res handler
    (parsedRequest : ParsedRestRequest) w :
  h_method h1 = h_method h2 ->
  h_mask h1 = h_mask h2 ->
  parse h1 req w = parse h2 req w /\
  predicate h1 req parsedRequest = predicate h2 req parsedRequest /\
  (getPublicRequest h1 req parsedRequest : JsM loc) w
    = getPublicRequest h2 req parsedRequest w /\
  filter (fun c => is_warn c = false) (w_console (snd (log h1 req res handler w)))
    = filter (fun c => is_warn c = false) (w_console (snd (log h2 req res handler w))).
Proof.
  intros Hmethod Hmask.
  split; [unfold parse; now rewrite Hmask|].
  split; [unfold predicate; now rewrite Hmethod|].
  split; [unfold getPublicRequest; now rewrite Hmask|].
  rewrite !log_run. simpl. rewrite !filter_app.
  assert (Hnone : forall h, filter (fun c => is_warn c = false) (warning_calls h : list Call) = []).
  { intros h. unfold warning_calls.
    destruct (h_resolvedMask h) as [s|r|u]; try reflexivity.
    now destruct (negb _). }
  rewrite !Hnone. unfold entry_calls. now rewrite Hmask.
Qed.

End RestProperties.

(** ** The handlers at work on concrete requests *)

Import Sample.

(** [rest.get(new URL('https://api.test/search?q=1'), resolver)]: the mask
    resolves to a URL with a query string, yet the console is still empty
    once the descriptor is built; the warning comes with each logged request,
    so two requests leave two warnings. *)
Lemma warning_comes_with_each_log :
  has_redundant_query (resolveMask (MaskURL api_search)) = true /\
  exists h w1 w2,
    createRestHandler GET (MaskURL api_search) respond_ok w0 = (Returned h, w0) /\
    warnings (w_console w0) = 0 /\
    log h get_search ok_response h w0 = (Returned tt, w1) /\
    warnings (w_console w1) = 1 /\
    log h get_search_other_query ok_response h w1 = (Returned tt, w2) /\
    warnings (w_console w2) = 2.
Proof.
  split; [reflexivity|].
  do 3 eexists.
  split; [apply createRestHandler_run|]. split; [reflexivity|].
  split; [apply log_run|]. split; [reflexivity|].
  split; [apply log_run | reflexivity].
Qed.

(** [rest.get('/user/42', resolver)] against [GET /user/42]. *)
Lemma predicate_after_parse_witness :
  exists h parsedRequest w',
    createRestHandler GET (MaskString "/user/42") respond_ok w0 = (Returned h, w0) /\
    parse h get_user w0 = (Returned parsedRequest, w') /\
    (predicate h get_user parsedRequest = true <->
     isStringEqual "GET" "GET" = true /\
     matches (exact_match user_42 (MaskString "/user/42")) = true).
Proof.
  destruct (predicate_after_parse GET (MaskString "/user/42") respond_ok w0)
    as (h & Hcreate & Hpredicate).
  destruct (Hpredicate get_user w0 (exact_match user_42 (MaskString "/user/42")) 0)
    as (parsedRequest & w' & Hparse & Hiff); [reflexivity|].
  exists h, parsedRequest, w'. split; [exact Hcreate|]. split; [exact Hparse | exact Hiff].
Defined.

(** A mask with a named segment, and the mapping the matcher extracted for
    it: the public request carries that mapping. *)
Lemma getPublicRequest_params_witness :
  exists (publicRequest : loc) (w' : world) (copy : MockedRequest),
    (getPublicRequest user_id_handler get_user matched_42
       : M nat string resolver_fn (string * string) Z loc) w0
      = (Returned publicRequest, w') /\
    w_heap w' !! publicRequest = Some copy /\
    req_params copy = Some id_42.
Proof.
  destruct (getPublicRequest_params (Thrown := string) user_id_handler get_user matched_42 w0)
    as (publicRequest & w' & copy & p & Hrun & _ & Hcopy & _ & _ & _ & _ & _
        & Hparams & Htruthy & _ & _).
  exists publicRequest, w', copy.
  split; [exact Hrun|]. split; [exact Hcopy|].
  rewrite Hparams. f_equal. apply Htruthy; reflexivity.
Defined.

(** A resolver that throws ["boom"] on a matched request: the request fails
    with ["boom"] and the console stays empty. *)
Lemma resolver_throw_propagates_witness :
  exists h w3,
    createRestHandler GET (MaskString "/user/42") throw_boom w0 = (Returned h, w0) /\
    handleRequest h get_user w0 = (Threw "boom", w3) /\
    w_console w3 = [].
Proof.
  destruct (resolver_throw_propagates GET (MaskString "/user/42") throw_boom w0)
    as (h & Hcreate & _ & Hthrow).
  exists h. eexists.
  split; [exact Hcreate|].
  injection Hcreate as <-.
  split; [eapply Hthrow; reflexivity | reflexivity].
Defined.

(** The sample matcher answers from its arguments alone, so parsing the same
    request twice gives the same parsed state. *)
Lemma parse_twice_same_match_witness :
  fst (parse user_id_handler get_user w0)
  = fst (parse user_id_handler get_user (snd (parse user_id_handler get_user w0))).
Proof.
  refine (proj1 (parse_twice_same_match user_id_handler get_user w0 _ _ _ _ _ _ _)).
  - intros url mask e e'. reflexivity.
  - apply surjective_pairing.
  - apply surjective_pairing.
Defined.

(** With a matcher that keeps state between calls the two parsed states need
    not agree: the purity of the matcher is what the property rests on. *)
Example parse_twice_stateful_matcher :
  let first := @parse _ _ _ _ _ flaky_imports user_id_handler get_user w0 in
  let second := @parse _ _ _ _ _ flaky_imports user_id_handler get_user (snd first) in
  fst first = Returned {| match_ := {| matches := true; params := Some ∅ |} |} /\
  fst second = Returned {| match_ := {| matches := false; params := Some ∅ |} |}.
Proof. split; reflexivity. Qed.

(** The incoming request lives at address 5; projecting it allocates the
    public request elsewhere and leaves the object at 5 without [params]. *)
Lemma getPublicRequest_leaves_request_witness :
  exists (publicRequest : loc) (w' : world),
    (getPublicRequest user_id_handler get_user matched_42
       : M nat string resolver_fn (string * string) Z loc) w_with_request
      = (Returned publicRequest, w') /\
    publicRequest <> 5 /\
    w_heap w' !! 5 = Some get_user /\
    req_params <$> w_heap w' !! 5 = Some None.
Proof.
  destruct (getPublicRequest_leaves_request (Thrown := string)
              user_id_handler get_user matched_42 w_with_request 5)
    as (publicRequest & w' & Hrun & Hne & Hsame & _); [reflexivity|].
  exists publicRequest, w'.
  split; [exact Hrun|]. split; [exact Hne|]. split; [exact Hsame|].
  rewrite Hsame. reflexivity.
Defined.

(** A GET from one page and a POST with a body from another, both for
    [/user/42], are parsed alike. *)
Lemma parse_same_url_witness :
  parse user_id_handler get_user w0 = parse user_id_handler post_user w0.
Proof. apply parse_same_url. reflexivity. Defined.

(** Two requests to another origin, one of them without a referrer, that
    differ in their query strings only: both are logged as
    [https://api.test/search]. *)
Lemma cross_origin_url_without_query_witness :
  exists w1 w2,
    log user_id_handler get_search_no_referrer ok_response user_id_handler w0
      = (Returned tt, w1) /\
    log user_id_handler get_search_other_query ok_response user_id_handler w0
      = (Returned tt, w2) /\
    logged_urls (w_console w1) = ["https://api.test/search"] /\
    logged_urls (w_console w2) = ["https://api.test/search"].
Proof.
  destruct (cross_origin_url_without_query user_id_handler
              get_search_no_referrer get_search_other_query
              ok_response user_id_handler w0)
    as (w1 & w2 & url & -> & Hlog1 & Hlog2 & Hurl1 & Hurl2); try reflexivity.
  exists w1, w2. repeat split; assumption.
Defined.

(** [rest.get('', resolver)]: the mapping extracted by the matcher does not
    reach the public request. *)
Lemma only_empty_string_mask_drops_params_witness :
  exists (publicRequest : loc) (w' : world),
    (getPublicRequest empty_mask_handler get_user matched_42
       : M nat string resolver_fn (string * string) Z loc) w0
      = (Returned publicRequest, w') /\
    req_params <$> w_heap w' !! publicRequest = Some (Some ∅).
Proof.
  destruct (only_empty_string_mask_drops_params (Thrown := string)
              empty_mask_handler get_user matched_42 id_42 w0 eq_refl)
    as (publicRequest & w' & Hrun & Hempty & _).
  exists publicRequest, w'. split; [exact Hrun|]. apply Hempty. reflexivity.
Defined.

(** A page on port 30001 asks for a URL on port 3000: the referrer begins
    with the characters of the URL's origin, and the entry shows the path. *)
Lemma referrer_with_origin_prefix_logs_path_witness :
  exists w',
    log user_id_handler get_user_from_port_30001 ok_response user_id_handler w0
      = (Returned tt, w') /\
    logged_urls (w_console w') = ["/user/42"].
Proof.
  apply (referrer_with_origin_prefix_logs_path user_id_handler
           get_user_from_port_30001 ok_response user_id_handler w0 "1/other").
  reflexivity.
Defined.

(** [/user/42] and [/user/42?tab=posts#top], asked for by the same page,
    are shown under the same URL. *)
Lemma logged_url_ignores_query_and_hash_witness :
  logged_urls (w_console (snd (log user_id_handler get_user ok_response user_id_handler w0)))
  = logged_urls (w_console (snd (log user_id_handler get_user_posts ok_response login_handler w0))).
Proof.
  apply logged_url_ignores_query_and_hash; reflexivity.
Defined.


(** The same mask given as a string and resolved to a URL: the warning
    quotes the string and suggests [rest.get("/search"]. *)
Lemma warning_quotes_mask_and_suggests_path_witness :
  exists (message : string) (w' : world),
    log search_string_resolved get_search ok_response search_string_resolved w0
      = (Returned tt, w') /\
    head (w_console w') = Some (Warn message) /\
    includes message
      (Js.dquote ++ "GET https://api.test/search?q=1" ++ Js.dquote) /\
    includes message ("rest.get(" ++ Js.dquote ++ "/search" ++ Js.dquote).
Proof.
  destruct (warning_quotes_mask_and_suggests_path search_string_resolved api_search
              get_search ok_response search_string_resolved w0 eq_refl)
    as (message & w' & Hlog & Hconsole & Hquote & Hsuggest); [discriminate|].
  exists message, w'. split; [exact Hlog|]. split; [now rewrite Hconsole|].
  split; [exact Hquote | exact Hsuggest].
Defined.

(** Whether the string mask was resolved to a URL or not, the request is
    parsed and the entry written in the same way. *)
Lemma resolved_mask_only_for_warning_witness :
  parse search_string_resolved get_search w0
    = parse search_string_unresolved get_search w0 /\
  filter (fun c => is_warn c = false)
    (w_console (snd (log search_string_resolved get_search ok_response login_handler w0)))
  = filter (fun c => is_warn c = false)
      (w_console (snd (log search_string_unresolved get_search ok_response login_handler w0))).
Proof.
  destruct (resolved_mask_only_for_warning (Thrown := string)
              search_string_resolved search_string_unresolved
              get_search ok_response login_handler matched_42 w0 eq_refl eq_refl)
    as (Hparse & _ & _ & Hlog).
  split; [exact Hparse | exact Hlog].
Defined.
